(** * desktop: pull progress adaptation and the resizable sidebar

    A shallow embedding of [app/src/lib/git/pull.ts] and
    [app/src/ui/sidebar.tsx].

    - JavaScript strings are [string], in UTF-8; [null] and [undefined] are
      [None].
    - Pixel widths and mouse coordinates are integers ([Z]); the only other
      number the sidebar meets is [NaN], the result of a failed [parseInt].
    - A progress fraction is a rational ([Q]).
    - [localStorage] is a finite map from keys to strings.
    - Effects are explicit: [pull] runs in a state-and-exception monad whose
      state holds the observer behind the progress callback and the list of
      git invocations; the sidebar is a record of its React state, its
      instance fields, the scheduler and the storage. *)

From Stdlib Require Import ZArith QArith String Ascii List Lia Bool.
From Stdlib Require Import DecimalString DecimalPos DecimalZ.
From stdpp Require Import base option strings gmap.
Import ListNotations.

Local Open Scope string_scope.
Local Open Scope list_scope.

(** ** JavaScript helpers *)

Module JS.

(** [s.startsWith(p)]. *)
Definition startsWith (s p : string) : bool := String.prefix p s.

(** Truthiness of a [string | null] value: [null] and the empty string are
    falsy. *)
Definition truthy_string (v : option string) : bool :=
  match v with
  | None => false
  | Some EmptyString => false
  | Some (String _ _) => true
  end.

Definition is_digit (c : ascii) : bool :=
  let n := nat_of_ascii c in (48 <=? n)%nat && (n <=? 57)%nat.

Definition digit_value (c : ascii) : N := N_of_ascii c - 48.

(** The longest prefix of decimal digits of [s], and what follows it. *)
Fixpoint span_digits (s : string) : string * string :=
  match s with
  | EmptyString => (EmptyString, EmptyString)
  | String c s' =>
      if is_digit c
      then let (ds, rest) := span_digits s' in (String c ds, rest)
      else (EmptyString, s)
  end.

(** The value of a string of decimal digits, most significant first. *)
Fixpoint digits_value_from (acc : N) (ds : string) : N :=
  match ds with
  | EmptyString => acc
  | String c ds' => digits_value_from (10 * acc + digit_value c) ds'
  end.

Definition digits_value (ds : string) : N := digits_value_from 0 ds.

Fixpoint all_digits (s : string) : bool :=
  match s with
  | EmptyString => true
  | String c s' => is_digit c && all_digits s'
  end.

(** [s] with the literal [lit] removed from its front, when it is there. *)
Fixpoint strip_prefix (lit s : string) : option string :=
  match lit, s with
  | EmptyString, _ => Some s
  | String a lit', String b s' =>
      if Ascii.eqb a b then strip_prefix lit' s' else None
  | String _ _, EmptyString => None
  end.

(** A JavaScript number, as far as the sidebar meets one: an integer or
    [NaN]. Widths and mouse positions are whole pixels; fractions and the
    infinities are left out. The integers that every double holds exactly
    are the safe ones ([safe_integer] below): on them the arithmetic,
    [toString] and [parseInt] of this module are those of JavaScript. *)
Inductive number :=
| NaN
| Num (z : Z).

(** A value of type [number | null | undefined]. *)
Inductive value :=
| Undefined
| Null
| Number (n : number).

(** [ToNumber]. *)
Definition ToNumber (v : value) : number :=
  match v with
  | Undefined => NaN
  | Null => Num 0
  | Number n => n
  end.

(** [ToBoolean]: [undefined], [null], [NaN] and zero are falsy. *)
Definition truthy (v : value) : bool :=
  match v with
  | Number (Num z) => negb (z =? 0)%Z
  | _ => false
  end.

Definition lift2 (f : Z -> Z -> Z) (a b : number) : number :=
  match a, b with
  | Num x, Num y => Num (f x y)
  | _, _ => NaN
  end.

(** [a + b], [a - b], [Math.min(a, b)] and [Math.max(a, b)] on numbers:
    [NaN] is contagious. *)
Definition add := lift2 Z.add.
Definition sub := lift2 Z.sub.
Definition Math_min := lift2 Z.min.
Definition Math_max := lift2 Z.max.

(** [Number.isSafeInteger(z)]: the magnitude is below 2^53. *)
Definition safe_integer (z : Z) : Prop := (Z.abs z < 2 ^ 53)%Z.

(** A number on which this module is exact: [NaN] or a safe integer. *)
Definition safe_number (n : number) : Prop :=
  match n with
  | NaN => True
  | Num z => safe_integer z
  end.

(** [n.toString()] of a number: the decimal digits of an integer, with a
    minus sign when it is negative. This is what JavaScript prints for a
    safe integer; past 2^53 JavaScript prints the shortest digits that
    identify the double, and from 1e21 on it prints an exponent. *)
Definition toString (n : number) : string :=
  match n with
  | NaN => "NaN"
  | Num z => NilZero.string_of_int (Z.to_int z)
  end.

(** White space of one byte that [parseInt] skips: tab, line feed, vertical
    tab, form feed, carriage return and space. *)
Definition is_space (c : ascii) : bool :=
  let n := nat_of_ascii c in
  ((9 <=? n)%nat && (n <=? 13)%nat) || (n =? 32)%nat.

(** The byte [c] is [n]. *)
Definition byte (c : ascii) (n : N) : bool := (N_of_ascii c =? n)%N.

(** One white space character or line terminator removed from the front of
    [s], when there is one. A string is the UTF-8 encoding of the
    JavaScript string: besides the one-byte white space these are U+00A0,
    U+1680, U+2000 to U+200A, U+2028, U+2029, U+202F, U+205F, U+3000 and
    U+FEFF. *)
Definition skip_space (s : string) : option string :=
  match s with
  | EmptyString => None
  | String c s1 =>
      if is_space c then Some s1
      else if byte c 194 then
        match s1 with
        | String b s2 => if byte b 160 then Some s2 else None
        | EmptyString => None
        end
      else if byte c 225 || byte c 226 || byte c 227 || byte c 239 then
        match s1 with
        | String b (String d s3) =>
            if (byte c 225 && byte b 154 && byte d 128)
               || (byte c 226 && byte b 128
                   && (((128 <=? N_of_ascii d)%N && (N_of_ascii d <=? 138)%N)
                       || byte d 168 || byte d 169 || byte d 175))
               || (byte c 226 && byte b 129 && byte d 159)
               || (byte c 227 && byte b 128 && byte d 128)
               || (byte c 239 && byte b 187 && byte d 191)
            then Some s3
            else None
        | _ => None
        end
      else None
  end.

Fixpoint trim_start_fuel (fuel : nat) (s : string) : string :=
  match fuel with
  | O => s
  | S fuel' =>
      match skip_space s with
      | Some s' => trim_start_fuel fuel' s'
      | None => s
      end
  end.

(** [s] without its leading white space; a string holds no more white space
    characters than bytes. *)
Definition trim_start (s : string) : string :=
  trim_start_fuel (String.length s) s.

(** [parseInt(s, 10)] of a string: leading white space is skipped, a sign is
    read, then the longest run of decimal digits; without a digit the
    result is [NaN]. What follows the digits is ignored. The result is the
    integer the digits spell, which is what JavaScript returns when that
    integer is safe; a longer run of digits it rounds to the nearest
    double. *)
Definition parseInt_string (s : string) : number :=
  let s := trim_start s in
  let '(negative, s) :=
    match s with
    | String "-" s' => (true, s')
    | String "+" s' => (false, s')
    | _ => (false, s)
    end in
  let (ds, _) := span_digits s in
  match ds with
  | EmptyString => NaN
  | String _ _ =>
      let n := Z.of_N (digits_value ds) in
      Num (if negative then - n else n)%Z
  end.

(** [parseInt(v, 10)] of a [string | null]: the argument is converted to a
    string first, and [null] becomes the string [null]. *)
Definition parseInt (v : option string) : number :=
  parseInt_string match v with
                  | Some s => s
                  | None => "null"
                  end.

End JS.

(** ** Progress records and the line parser ([../progress]) *)

Module Progress.

(** Modelled from the spec: the record types of [../progress], which is not
    among the source files. [details: { text, percent }] of a measured step;
    [percent] is the completion fraction. *)
Record IProgressDetails := {
  text : string;
  percent : Q;
}.

(** The tagged union [parse] returns, with what [pull] reads of it:
    [kind], [text] of a context record, [details.text] of a progress
    record, and [percent] of either. Modelled from the spec: the
    declaration is not among the source files; the spec has
    [Context { text }] and [Progress { details: { text, percent } }]. The
    [percent] of a context record is a property the spec's record does not
    have: it is [None] ([undefined]) in a record of that shape. *)
Inductive IProgress :=
| Context (text : string) (percent : option Q)
| Progress (details : IProgressDetails).

(** [progress.kind]. *)
Definition kind (p : IProgress) : string :=
  match p with
  | Context _ _ => "context"
  | Progress _ => "progress"
  end.

(** [progress.percent], which [pull] reads off either variant: the
    completion fraction of a measured step, and whatever a context record
    has under that name. *)
Definition record_percent (p : IProgress) : option Q :=
  match p with
  | Context _ percent => percent
  | Progress d => Some (percent d)
  end.

(** A matcher of the parser's table: it recognises one textual format and
    builds the details of the step, or declines. *)
Definition Matcher := string -> option IProgressDetails.

(** Modelled from the spec: the matchers are tried top to bottom and the
    first match wins. *)
Fixpoint first_match (ms : list Matcher) (line : string)
  : option IProgressDetails :=
  match ms with
  | [] => None
  | m :: ms' =>
      match m line with
      | Some d => Some d
      | None => first_match ms' line
      end
  end.

(** Modelled from the spec: [parse] over a table of matchers; a line no
    matcher recognises falls through to the context variant, which carries
    the raw line. *)
Definition parse_with (ms : list Matcher) (line : string) : IProgress :=
  match first_match ms line with
  | Some d => Progress d
  | None => Context line None
  end.

(** The label of a progress line: the characters before the first colon,
    and what follows that colon. *)
Fixpoint split_colon (s : string) : option (string * string) :=
  match s with
  | EmptyString => None
  | String c s' =>
      if Ascii.eqb c ":"%char then Some (EmptyString, s')
      else match split_colon s' with
           | Some (label, rest) => Some (String c label, rest)
           | None => None
           end
  end.

(** A non-empty run of digits at the front of [s]: its value and the rest. *)
Definition number (s : string) : option (N * string) :=
  let (ds, rest) := JS.span_digits s in
  match ds with
  | EmptyString => None
  | String _ _ => Some (JS.digits_value ds, rest)
  end.

(** Modelled from the spec: the known percentage format of the external
    tool, [<label>: <p>% (<value>/<total>)], as in
    [Counting objects: 50% (50/100)]. The description is the label and the
    completion fraction is the stated percentage over one hundred; a
    percentage above one hundred is no completion fraction, and the line is
    left to the context variant. *)
Definition percent_format : Matcher := fun line =>
  '(label, r1) ← split_colon line;
  r2 ← JS.strip_prefix " " r1;
  '(p, r3) ← number r2;
  r4 ← JS.strip_prefix "% (" r3;
  '(_, r5) ← number r4;
  r6 ← JS.strip_prefix "/" r5;
  '(_, r7) ← number r6;
  _ ← JS.strip_prefix ")" r7;
  if (p <=? 100)%N
  then Some {| text := label;
               percent := Qred (Z.of_N p # 100) |}
  else None.

(** The parser's table. *)
Definition matchers : list Matcher := [percent_format].

(** Modelled from the spec: [PullProgressParser.parse], a pure function of
    the line. *)
Definition parse (line : string) : IProgress := parse_with matchers line.

End Progress.

(** ** Running git ([./core]) *)

Module Git.

(** The part of [Repository] that [pull] uses. *)
Record Repository := { path : string }.

(** The part of [IGitResult] that [pull] uses; [null] is [None]. *)
Record IGitResult := {
  exitCode : Z;
  gitErrorDescription : option string;
}.

(** [new GitError(result, args)]. *)
Record GitError := {
  result : IGitResult;
  args : list string;
}.

(** A spawned process: the lines its standard error will deliver. *)
Record ChildProcess := { stderr : list string }.

(** What the external tool does on one invocation. *)
Record Run := {
  process : ChildProcess;
  outcome : IGitResult;
}.

End Git.

(** ** [pull] *)

Module Pull.

Import Git.

(** [IPullProgress] as [pull] builds it: [description] and [value] are
    optional. *)
Record IPullProgress := {
  kind : string;
  title : string;
  description : option string;
  value : option Q;
  remote : string;
}.

Section WithObserver.

(** Whatever stands behind the progress callback. *)
Context {Observer : Type}.

(** The state [pull] acts on: the observer, and the argument lists git
    has been invoked with, oldest first. *)
Record World := {
  observer : Observer;
  invocations : list (list string);
}.

(** A computation that reads and writes the world and either returns or
    throws a [GitError]; the world survives a throw. *)
Definition M (A : Type) : Type := World -> (GitError + A) * World.

#[local] Instance M_ret : MRet M := fun A a w => (inr a, w).

#[local] Instance M_bind : MBind M := fun A B f m w =>
  match m w with
  | (inr a, w') => f a w'
  | (inl e, w') => (inl e, w')
  end.

Definition throw {A} (e : GitError) : M A := fun w => (inl e, w).

(** Calling the callback [cb] with the event [e]. *)
Definition call {E} (cb : E -> Observer -> Observer) (e : E) : M unit :=
  fun w => (inr tt, {| observer := cb e (observer w);
                       invocations := invocations w |}).

Definition record_invocation (args : list string) : M unit :=
  fun w => (inr tt, {| observer := observer w;
                       invocations := invocations w ++ [args] |}).

(** [byline(stream).on('data', handler)]: the handler meets the lines of
    the stream one by one, in stream order; byline skips the empty lines. *)
Fixpoint byline_on_data (stream : list string) (handler : string -> M unit)
  : M unit :=
  match stream with
  | [] => mret tt
  | line :: stream' =>
      match line with
      | EmptyString => mret tt
      | String _ _ => handler line
      end ;;
      byline_on_data stream' handler
  end.

Context {Account Env Errors : Type}.

Record IGitExecutionOptions := {
  env : Env;
  expectedErrors : Errors;
  processCallback : option (ChildProcess -> M unit);
}.

Variable envForAuthentication : option Account -> Env.
Variable expectedAuthenticationErrors : Errors.

(** The external tool: its run for an argument list and a directory. *)
Variable spawn : list string -> string -> Run.

(** The line parser, [new PullProgressParser()] and its [parse]. *)
Variable parse : string -> Progress.IProgress.

(** Modelled from the spec: [git] of [./core], which is not among the
    source files. It spawns the process once, hands it to the
    [processCallback] of the options, lets the output arrive and resolves
    with the result of the run. *)
Definition git (args : list string) (path name : string)
    (options : IGitExecutionOptions) : M IGitResult :=
  let run := spawn args path in
  record_invocation args ;;
  match processCallback options with
  | Some cb => cb (process run)
  | None => mret tt
  end ;;
  mret (outcome run).

(** The ['data'] handler of [pull]. *)
Definition on_data (kind title remote : string)
    (progressCallback : IPullProgress -> Observer -> Observer)
    (line : string) : M unit :=
  let progress := parse line in
  if match progress with
     | Progress.Context text _ =>
         negb (JS.startsWith text "remote: Counting objects")
     | Progress.Progress _ => false
     end
  then mret tt
  else
    call progressCallback {|
      kind := kind;
      title := title;
      description :=
        Some match progress with
             | Progress.Progress details => Progress.text details
             | Progress.Context text _ => text
             end;
      value := Progress.record_percent progress;
      remote := remote;
    |}.

(** Pull from the remote to the branch. *)
Definition pull (repository : Repository) (account : option Account)
    (remote : string)
    (progressCallback : option (IPullProgress -> Observer -> Observer))
  : M unit :=
  let options := {|
    env := envForAuthentication account;
    expectedErrors := expectedAuthenticationErrors;
    processCallback := None;
  |} in
  options ←
    match progressCallback with
    | Some cb =>
        let title := "Pulling " +:+ remote in
        let kind := "pull" in
        let options := {|
          env := env options;
          expectedErrors := expectedErrors options;
          processCallback := Some (fun process =>
            byline_on_data (stderr process) (on_data kind title remote cb));
        |} in
        call cb {| kind := kind; title := title; description := None;
                   value := Some 0%Q; remote := remote |} ;;
        mret options
    | None => mret options
    end;
  let args :=
    match progressCallback with
    | Some _ => ["pull"; "--progress"; remote]
    | None => ["pull"; remote]
    end in
  result ← git args (path repository) "pull" options;
  if JS.truthy_string (gitErrorDescription result)
  then throw {| result := result; args := args |}
  else mret tt.

End WithObserver.

End Pull.

(** ** The throttled scheduler ([./lib/throttled-scheduler]) *)

Module ThrottledScheduler.

Section WithAction.

(** What a queued thunk does when it runs. *)
Context {Action : Type}.

(** An armed one-shot timer: the time it is due, in milliseconds, and the
    action it will invoke. *)
Record Timer := {
  due : nat;
  action : Action;
}.

(** Modelled from the spec: the scheduler of [./lib/throttled-scheduler],
    which is not among the source files: a fixed delay and an owned
    optional timer handle. *)
Record t := {
  delay : nat;
  handle : option Timer;
}.

(** [new ThrottledScheduler(delay)]. *)
Definition new (delay : nat) : t := {| delay := delay; handle := None |}.

(** Modelled from the spec: [queue(action)] at the time [now] cancels any
    pending timer and arms a new one, due after the delay. *)
Definition queue (now : nat) (a : Action) (s : t) : t :=
  {| delay := delay s;
     handle := Some {| due := now + delay s; action := a |} |}.

(** Modelled from the spec: the timer facility at the time [now]. A
    pending timer that is due fires: the handle is cleared and the action
    is handed over to be invoked. *)
Definition fire (now : nat) (s : t) : t * option Action :=
  match handle s with
  | Some timer =>
      if (due timer <=? now)%nat
      then ({| delay := delay s; handle := None |}, Some (action timer))
      else (s, None)
  | None => (s, None)
  end.

(** What happens to a scheduler: a call of [queue], or time passing. *)
Inductive Event :=
| Queue (a : Action)
| Elapse (dt : nat).

(** A scheduler in time, with the actions that have run, oldest first. *)
Record Timeline := {
  now : nat;
  scheduler : t;
  executed : list Action;
}.

Definition start (delay : nat) : Timeline :=
  {| now := 0; scheduler := new delay; executed := [] |}.

Definition step (tl : Timeline) (e : Event) : Timeline :=
  match e with
  | Queue a =>
      {| now := now tl;
         scheduler := queue (now tl) a (scheduler tl);
         executed := executed tl |}
  | Elapse dt =>
      let now' := now tl + dt in
      let (s', fired) := fire now' (scheduler tl) in
      {| now := now';
         scheduler := s';
         executed := match fired with
                     | Some a => executed tl ++ [a]
                     | None => executed tl
                     end |}
  end.

Definition run (tl : Timeline) (es : list Event) : Timeline :=
  fold_left step es tl.

End WithAction.

Arguments Timer : clear implicits.
Arguments t : clear implicits.
Arguments Event : clear implicits.
Arguments Timeline : clear implicits.

End ThrottledScheduler.

(** ** The sidebar *)

Module Sidebar.

Import JS.

(** The props after React has filled in [defaultProps]. *)
Record ISidebarProps := {
  defaultWidth : Z;
  maximumWidth : Z;
  minimumWidth : Z;
}.

Definition defaultProps : ISidebarProps :=
  {| defaultWidth := 250; minimumWidth := 150; maximumWidth := 350 |}.

(** The width of the sidebar in pixels; optional. *)
Record ISidebarState := { width : value }.

(** String key used when persisting the sidebar width to localStorage. *)
Definition sidebarWidthConfigKey : string := "sidebar-width".

(** A queued write: what it does to the storage when it runs. *)
Abbreviation Write := (gmap string string -> gmap string string).

(** The component instance. *)
Record t := {
  props : ISidebarProps;
  state : ISidebarState;
  startWidth : value;
  startX : value;
  configWriteScheduler : ThrottledScheduler.t Write;
}.

Definition setState (w : value) (sb : t) : t :=
  {| props := props sb;
     state := {| width := w |};
     startWidth := startWidth sb;
     startX := startX sb;
     configWriteScheduler := configWriteScheduler sb |}.

Definition set_scheduler (s : ThrottledScheduler.t Write) (sb : t) : t :=
  {| props := props sb;
     state := state sb;
     startWidth := startWidth sb;
     startX := startX sb;
     configWriteScheduler := s |}.

Definition getPersistedWidth (localStorage : gmap string string) : number :=
  parseInt (localStorage !! sidebarWidthConfigKey).

Definition constructor (p : ISidebarProps)
    (localStorage : gmap string string) : t :=
  {| props := p;
     state := {| width := Number (getPersistedWidth localStorage) |};
     startWidth := Undefined;
     startX := Undefined;
     configWriteScheduler := ThrottledScheduler.new 300 |}.

Definition setPersistedWidth (now : nat) (newWidth : number) (sb : t) : t :=
  set_scheduler
    (ThrottledScheduler.queue now
       (fun localStorage : gmap string string =>
          <[sidebarWidthConfigKey := toString newWidth]> localStorage)
       (configWriteScheduler sb))
    sb.

Definition clearPersistedWidth (now : nat) (sb : t) : t :=
  set_scheduler
    (ThrottledScheduler.queue now
       (fun localStorage : gmap string string =>
          delete sidebarWidthConfigKey localStorage)
       (configWriteScheduler sb))
    sb.

Definition getCurrentWidth (sb : t) : value :=
  if truthy (width (state sb))
  then width (state sb)
  else Number (Num (defaultWidth (props sb))).

(** The user presses the mouse button over the resize handle. *)
Definition handleDragStart (clientX : Z) (sb : t) : t :=
  {| props := props sb;
     state := state sb;
     startWidth := if truthy (getCurrentWidth sb)
                   then getCurrentWidth sb
                   else Null;
     startX := Number (Num clientX);
     configWriteScheduler := configWriteScheduler sb |}.

(** The user moves the mouse while dragging. *)
Definition handleDragMove (now : nat) (clientX : Z) (sb : t) : t :=
  let deltaX := sub (Num clientX) (ToNumber (startX sb)) in
  let newWidth := add (ToNumber (startWidth sb)) deltaX in
  let newWidthClamped :=
    Math_max (Num (minimumWidth (props sb)))
             (Math_min (Num (maximumWidth (props sb))) newWidth) in
  setPersistedWidth now newWidthClamped
    (setState (Number newWidthClamped) sb).

(** The resize handle is double clicked. *)
Definition handleDoubleClick (now : nat) (sb : t) : t :=
  clearPersistedWidth now (setState Undefined sb).

(** The width [render] puts into the style of the element. *)
Definition render_width (sb : t) : value := getCurrentWidth sb.

(** The page the component lives in: the storage, the clock, and whether
    [handleDragMove] and [handleDragStop] are registered on the document. *)
Record Page := {
  component : t;
  localStorage : gmap string string;
  clock : nat;
  listening : bool;
}.

Definition mount (p : ISidebarProps) (localStorage : gmap string string)
  : Page :=
  {| component := constructor p localStorage;
     localStorage := localStorage;
     clock := 0;
     listening := false |}.

(** What can happen on the page. *)
Inductive Event :=
| MouseDown (clientX : Z)
| MouseMove (clientX : Z)
| MouseUp
| DoubleClick
| Elapse (dt : nat).

(** One turn of the event loop. [handleDragStart] registers the two
    document listeners and [handleDragStop] removes them; a mouse move or
    release reaches the component only while they are registered. When
    time passes, a due timer of the scheduler runs its write. *)
Definition dispatch (pg : Page) (e : Event) : Page :=
  match e with
  | MouseDown x =>
      {| component := handleDragStart x (component pg);
         localStorage := localStorage pg;
         clock := clock pg;
         listening := true |}
  | MouseMove x =>
      if listening pg
      then {| component := handleDragMove (clock pg) x (component pg);
              localStorage := localStorage pg;
              clock := clock pg;
              listening := true |}
      else pg
  | MouseUp =>
      {| component := component pg;
         localStorage := localStorage pg;
         clock := clock pg;
         listening := false |}
  | DoubleClick =>
      {| component := handleDoubleClick (clock pg) (component pg);
         localStorage := localStorage pg;
         clock := clock pg;
         listening := listening pg |}
  | Elapse dt =>
      let now := clock pg + dt in
      let (s, fired) :=
        ThrottledScheduler.fire now (configWriteScheduler (component pg)) in
      {| component := set_scheduler s (component pg);
         localStorage := match fired with
                         | Some write => write (localStorage pg)
                         | None => localStorage pg
                         end;
         clock := now;
         listening := listening pg |}
  end.

Definition events (pg : Page) (es : list Event) : Page :=
  fold_left dispatch es pg.

End Sidebar.

(** * The vocabulary of the properties *)

Module Import Vocabulary.

Import Git Pull.

(** ** Events of [pull] *)

(** The lines [byline] hands on: those that are not empty. *)
Definition byline_lines (lines : list string) : list string :=
  List.filter (fun line => match line with
                           | EmptyString => false
                           | String _ _ => true
                           end) lines.

(** A callback that keeps every event it receives, oldest first. *)
Definition sink (e : IPullProgress) (log : list IPullProgress)
  : list IPullProgress := log ++ [e].

(** The event [pull] builds from the record of a line. *)
Definition event_of (remote : string) (progress : Progress.IProgress)
  : IPullProgress :=
  {| kind := "pull";
     title := "Pulling " +:+ remote;
     description :=
       Some match progress with
            | Progress.Progress details => Progress.text details
            | Progress.Context text _ => text
            end;
     value := Progress.record_percent progress;
     remote := remote |}.

(** Whether the record of a line passes the filter of the handler. *)
Definition passes (progress : Progress.IProgress) : bool :=
  match progress with
  | Progress.Context text _ =>
      JS.startsWith text "remote: Counting objects"
  | Progress.Progress _ => true
  end.

Definition line_events (parse : string -> Progress.IProgress)
    (remote line : string) : list IPullProgress :=
  if passes (parse line) then [event_of remote (parse line)] else [].

Definition pull_args (progress : bool) (remote : string) : list string :=
  if progress then ["pull"; "--progress"; remote] else ["pull"; remote].

(** The observer after the callback has met the events [es] in order. *)
Definition deliver {Observer : Type}
    (cb : IPullProgress -> Observer -> Observer)
    (es : list IPullProgress) (o : Observer) : Observer :=
  fold_left (fun o e => cb e o) es o.

(** The shape of an event of a run of [pull] for [remote] whose subprocess
    wrote [lines]. *)
Definition event_shape (parse : string -> Progress.IProgress)
    (remote : string) (lines : list string) (e : IPullProgress) : Prop :=
  kind e = "pull"
  /\ title e = "Pulling " +:+ remote
  /\ Pull.remote e = remote
  /\ (forall q, value e = Some q -> (0 <= q <= 1)%Q)
  /\ ((description e = None /\ value e = Some 0%Q)
      \/ exists line,
           In line lines
           /\ value e = Progress.record_percent (parse line)
           /\ match parse line with
              | Progress.Progress details =>
                  description e = Some (Progress.text details)
              | Progress.Context text _ => description e = Some text
              end).

(** ** Lines in the percentage format *)

(** Nothing of [s] is a colon. *)
Fixpoint no_colon (s : string) : bool :=
  match s with
  | EmptyString => true
  | String c s' => negb (Ascii.eqb c ":"%char) && no_colon s'
  end.

(** A non-empty run of decimal digits. *)
Definition digits (s : string) : Prop :=
  JS.all_digits s = true /\ s <> EmptyString.

(** [s] does not go on with a digit. *)
Definition ends_number (s : string) : bool :=
  match s with
  | EmptyString => true
  | String c _ => negb (JS.is_digit c)
  end.

(** A line in the percentage format of the tool. *)
Definition percentage_line (label p value total rest : string) : string :=
  label +:+ ": " +:+ p +:+ "% (" +:+ value +:+ "/" +:+ total +:+ ")"
  +:+ rest.

(** ** Bursts of calls of the scheduler *)

Import ThrottledScheduler.

(** A burst of calls of [queue]: the first call, then each further call
    after its gap, in milliseconds, to the call before it. *)
Definition burst {Action : Type} (first : Action) (rest : list (nat * Action))
  : list (Event Action) :=
  Queue first :: flat_map (fun c => [Elapse (fst c); Queue (snd c)]) rest.

(** The action of the last call of a burst. *)
Definition last_queued {Action : Type} (first : Action)
    (rest : list (nat * Action)) : Action :=
  List.last (map snd rest) first.

(** Time passing in steps, with no call of [queue]. *)
Definition waiting {Action : Type} (waits : list nat)
  : list (Event Action) :=
  map Elapse waits.

(** ** Pages of the sidebar *)

Import JS Sidebar.

(** While the document listeners are registered, the drag has a start
    position and a start width that are numbers. *)
Definition drag_ready (pg : Page) : Prop :=
  listening pg = true ->
  (exists x0, startX (component pg) = Number (Num x0))
  /\ (exists w0, ToNumber (startWidth (component pg)) = Num w0).

(** ** Concrete data *)


(** A world in which nothing has happened yet. *)
Definition fresh : @Pull.World (list Pull.IPullProgress) :=
  {| Pull.observer := []; Pull.invocations := [] |}.

(** A run of the tool that counts, receives and reports a ref update. *)
Definition example_spawn (args : list string) (path : string) : Git.Run :=
  {| Git.process :=
       {| Git.stderr :=
            ["remote: Counting objects: 10% (1/10)";
             "Receiving objects: 50% (50/100)";
             "From https://github.com/desktop/desktop"] |};
     Git.outcome := {| Git.exitCode := 0; Git.gitErrorDescription := None |} |}.

(** Props whose minimum lies above their maximum. *)
Definition crossed_props : ISidebarProps :=
  {| defaultWidth := 250; minimumWidth := 400; maximumWidth := 350 |}.

(** ** Whole runs of [pull] and of the sidebar *)

(** The events of a run of [pull] with a callback whose subprocess wrote
    [lines]: the initial event, then the events of the records that pass the
    filter, in the order of the lines; empty lines have no record. *)
Definition pull_events (parse : string -> Progress.IProgress)
    (remote : string) (lines : list string) : list IPullProgress :=
  {| Pull.kind := "pull"; Pull.title := "Pulling " +:+ remote;
     Pull.description := None; Pull.value := Some 0%Q;
     Pull.remote := remote |}
  :: map (event_of remote)
       (List.filter passes (map parse (byline_lines lines))).

(** [w] brought between the minimum and the maximum width of the props, the
    minimum winning. *)
Definition clamp (p : ISidebarProps) (w : Z) : Z :=
  Z.max (minimumWidth p) (Z.min (maximumWidth p) w).

(** A number between the minimum and the maximum width of the props. *)
Definition in_bounds (p : ISidebarProps) (v : value) : Prop :=
  exists w, v = Number (Num w) /\ (minimumWidth p <= w <= maximumWidth p)%Z.

(** What happens while the mouse button stays down: the mouse moves and time
    passes. *)
Definition drag_motion (e : Sidebar.Event) : Prop :=
  match e with
  | MouseMove _ | Sidebar.Elapse _ => True
  | _ => False
  end.

(** A drag in progress on a page: the listeners are registered, and the
    start position and the start width are the numbers [x0] and [w0]. *)
Definition dragging (x0 w0 : Z) (pg : Page) : Prop :=
  listening pg = true
  /\ startX (component pg) = Number (Num x0)
  /\ ToNumber (startWidth (component pg)) = Num w0.

(** What happens on the page apart from resizing: presses, releases and
    time passing, but no mouse move and no double click. *)
Definition idle (e : Sidebar.Event) : Prop :=
  match e with
  | MouseMove _ | DoubleClick => False
  | _ => True
  end.

(** Mouse moves, each followed by a pause in milliseconds. *)
Definition drag_burst (moves : list (Z * nat)) : list Sidebar.Event :=
  flat_map (fun c => [MouseMove (fst c); Sidebar.Elapse (snd c)]) moves.

End Vocabulary.

(** * Properties *)

(** ** [pull]: the events the progress callback receives *)

Section PullFacts.

Import Git Pull.

Context {Account Env Errors : Type}.
Variable envForAuthentication : option Account -> Env.
Variable expectedAuthenticationErrors : Errors.
Variable spawn : list string -> string -> Run.
Variable parse : string -> Progress.IProgress.

Abbreviation pull_ := (pull envForAuthentication expectedAuthenticationErrors
                        spawn parse).

Ltac run_monad :=
  unfold mbind, M_bind, mret, M_ret, call, record_invocation, throw; simpl.

Section AnyCallback.

Context {Observer : Type}.
Variable cb : IPullProgress -> Observer -> Observer.

Lemma on_data_run remote line (w : World) :
  on_data parse "pull" ("Pulling " +:+ remote) remote cb line w
  = (inr tt,
     {| observer := deliver cb (line_events parse remote line) (observer w);
        invocations := invocations w |}).
Proof.
  unfold on_data, line_events, passes, event_of, deliver.
  destruct (parse line) as [text percent | details]; simpl.
  - destruct (JS.startsWith text _); simpl; run_monad.
    + reflexivity.
    + by destruct w.
  - reflexivity.
Qed.

Lemma byline_on_data_run remote lines : forall w : World,
  byline_on_data lines
    (on_data parse "pull" ("Pulling " +:+ remote) remote cb) w
  = (inr tt,
     {| observer :=
          deliver cb
            (flat_map (line_events parse remote) (byline_lines lines))
            (observer w);
        invocations := invocations w |}).
Proof.
  induction lines as [| line lines IH]; intros w.
  - simpl. run_monad. by destruct w.
  - destruct line as [| c line].
    + change (byline_on_data (EmptyString :: lines) ?h w)
        with (byline_on_data lines h w).
      by rewrite IH.
    + change (byline_lines (String c line :: lines))
        with (String c line :: byline_lines lines).
      simpl. unfold mbind, M_bind. rewrite on_data_run, IH. simpl.
      unfold deliver. by rewrite fold_left_app.
Qed.

(** The whole run of [pull] with a callback. *)
Lemma pull_with_callback repository account remote (w : World) :
  let args := pull_args true remote in
  let run := spawn args (path repository) in
  pull_ repository account remote (Some cb) w
  = (if JS.truthy_string (gitErrorDescription (outcome run))
     then inl {| result := outcome run; args := args |}
     else inr tt,
     {| observer :=
          deliver cb
            ({| kind := "pull"; title := "Pulling " +:+ remote;
                description := None; value := Some 0%Q;
                remote := remote |}
             :: flat_map (line_events parse remote)
                    (byline_lines (stderr (process run))))
            (observer w);
        invocations := invocations w ++ [args] |}).
Proof.
  intros args run. unfold pull, git. run_monad.
  fold args. fold run.
  rewrite byline_on_data_run. simpl.
  by destruct (JS.truthy_string _).
Qed.

(** The whole run of [pull] without a callback. *)
Lemma pull_without_callback repository account remote
    (w : @World Observer) :
  let args := pull_args false remote in
  let run := spawn args (path repository) in
  pull_ repository account remote None w
  = (if JS.truthy_string (gitErrorDescription (outcome run))
     then inl {| result := outcome run; args := args |}
     else inr tt,
     {| observer := observer w;
        invocations := invocations w ++ [args] |}).
Proof.
  intros args run. unfold pull, git. run_monad.
  fold args. fold run.
  by destruct (JS.truthy_string _).
Qed.

End AnyCallback.

Lemma deliver_sink es : forall log, deliver sink es log = log ++ es.
Proof.
  unfold deliver, sink.
  induction es as [| e es IH]; intros log; simpl.
  - by rewrite app_nil_r.
  - rewrite IH, <- app_assoc. reflexivity.
Qed.

Lemma line_events_cases remote line :
  line_events parse remote line = [event_of remote (parse line)]
    /\ passes (parse line) = true
  \/ line_events parse remote line = [] /\ passes (parse line) = false.
Proof.
  unfold line_events. destruct (passes (parse line)); auto.
Qed.

(** C2. The handler of [pull], for a line whose record is a [Context]:
    the callback receives an event if and only if the text starts with
    [remote: Counting objects], and a suppressed line leaves the world as
    it was. For a line whose record is a [Progress] the callback always
    receives an event. *)
Theorem on_data_filters_context remote line (w : World) :
  let after :=
    snd (on_data parse "pull" ("Pulling " +:+ remote) remote sink line w) in
  (forall text percent, parse line = Progress.Context text percent ->
     ((exists e, observer after = observer w ++ [e])
      <-> JS.startsWith text "remote: Counting objects" = true)
     /\ (JS.startsWith text "remote: Counting objects" = false ->
         after = w))
  /\ (forall details, parse line = Progress.Progress details ->
        exists e, observer after = observer w ++ [e]).
Proof.
  intros after. subst after. rewrite on_data_run, deliver_sink. simpl.
  unfold line_events, passes. split.
  - intros text percent ->.
    destruct (JS.startsWith text _) eqn:Hpre; split.
    + split; [done | eauto].
    + done.
    + split; [| done]. intros [e He].
      rewrite app_nil_r in He.
      apply (f_equal length) in He. rewrite length_app in He.
      simpl in He. lia.
    + intros _. rewrite app_nil_r. by destruct w.
  - intros details ->. eauto.
Qed.

(** C3. With a progress callback, the first event the callback receives is
    the initial one, with value 0, kind [pull], the title and the remote;
    every event after it comes from a line of the subprocess. Without a
    callback the observer is left as it was. *)
Theorem pull_initial_event_first repository account remote (w : World) :
  (exists derived,
     observer (snd (pull_ repository account remote (Some sink) w))
     = observer w
       ++ {| kind := "pull"; title := "Pulling " +:+ remote;
             description := None; value := Some 0%Q; remote := remote |}
       :: derived
     /\ Forall
          (fun e =>
             exists line,
               In line
                 (stderr (process (spawn ["pull"; "--progress"; remote]
                                         (path repository))))
               /\ e = event_of remote (parse line))
          derived)
  /\ observer (snd (pull_ repository account remote None w)) = observer w.
Proof.
  split.
  - rewrite pull_with_callback, deliver_sink. simpl.
    eexists. split; [reflexivity |].
    apply List.Forall_forall. intros e He.
    apply in_flat_map in He as (line & Hline & He).
    apply List.filter_In in Hline as [Hline _].
    exists line. split; [done |].
    destruct (line_events_cases remote line) as [[Heq _] | [Heq _]];
      rewrite Heq in He; simpl in He; [| done].
    by destruct He.
  - by rewrite pull_without_callback.
Qed.

(** C6. [pull] throws if and only if the result of the git invocation has
    a (truthy) [gitErrorDescription]; what it throws is the [GitError] of
    that result and the arguments; otherwise it returns normally. Git is
    invoked exactly once either way. *)
Theorem pull_throws_iff_git_error {Observer : Type} repository account
    remote (progressCallback : option (IPullProgress -> Observer -> Observer))
    (w : World) :
  let args := pull_args (bool_decide (is_Some progressCallback)) remote in
  let result := outcome (spawn args (path repository)) in
  let ran := pull_ repository account remote progressCallback w in
  ((exists e, fst ran = inl e)
   <-> JS.truthy_string (gitErrorDescription result) = true)
  /\ (forall e, fst ran = inl e -> e = {| result := result; args := args |})
  /\ (fst ran = inr tt
      <-> JS.truthy_string (gitErrorDescription result) = false)
  /\ invocations (snd ran) = invocations w ++ [args].
Proof.
  destruct progressCallback as [cb |]; simpl;
    [rewrite pull_with_callback | rewrite pull_without_callback]; simpl;
    destruct (JS.truthy_string _); simpl;
    repeat split; try done; eauto; try congruence;
    try (intros [e He]; done).
Qed.

(** C7. Every event a run of [pull] hands to the callback has kind [pull],
    the title [Pulling <remote>] and the remote; an event of a line has as
    description the text of the record ([details.text] of a [Progress],
    [text] of a [Context]) and as value the percent of the record; a value
    that is present lies in [0,1], given that the parser keeps the
    percent of its records there. *)
Theorem pull_event_shape repository account remote (w : World) :
  (forall line q,
     Progress.record_percent (parse line) = Some q -> (0 <= q <= 1)%Q) ->
  exists new,
    observer (snd (pull_ repository account remote (Some sink) w))
    = observer w ++ new
    /\ Forall
         (event_shape parse remote
            (stderr (process (spawn ["pull"; "--progress"; remote]
                                    (path repository)))))
         new.
Proof.
  intros Hrange. rewrite pull_with_callback, deliver_sink. simpl.
  eexists. split; [reflexivity |].
  constructor.
  - unfold event_shape; simpl. split_and!; try done.
    + by intros q [= <-].
    + by left.
  - apply List.Forall_forall. intros e He.
    apply in_flat_map in He as (line & Hline & He).
    apply List.filter_In in Hline as [Hline _].
    destruct (line_events_cases remote line) as [[Heq _] | [Heq _]];
      rewrite Heq in He; simpl in He; [| done].
    destruct He as [<- | []].
    unfold event_shape; simpl. split_and!; try done.
    + intros q Hq. by apply (Hrange line).
    + right. exists line. split; [done |]. split; [done |].
      by destruct (parse line).
Qed.


End PullFacts.

(** ** The line parser *)

Section ParserFacts.

Import Progress.

Lemma split_colon_app label rest :
  no_colon label = true ->
  split_colon (label +:+ String ":" rest) = Some (label, rest).
Proof.
  induction label as [| c label IH]; simpl; intros H.
  - reflexivity.
  - apply andb_prop in H as [Hc Hl].
    apply negb_true_iff in Hc. rewrite Hc, (IH Hl). reflexivity.
Qed.

Lemma strip_prefix_app lit s : JS.strip_prefix lit (lit +:+ s) = Some s.
Proof.
  induction lit as [| c lit IH]; simpl.
  - by destruct s.
  - by rewrite Ascii.eqb_refl.
Qed.

Lemma span_digits_app ds rest :
  JS.all_digits ds = true ->
  ends_number rest = true ->
  JS.span_digits (ds +:+ rest) = (ds, rest).
Proof.
  intros Hds Hrest. induction ds as [| c ds IH]; simpl.
  - destruct rest as [| c rest]; simpl in *; [done |].
    apply negb_true_iff in Hrest. by rewrite Hrest.
  - simpl in Hds. apply andb_prop in Hds as [Hc Hds].
    rewrite Hc, (IH Hds). reflexivity.
Qed.

Lemma number_app ds rest :
  digits ds ->
  ends_number rest = true ->
  number (ds +:+ rest) = Some (JS.digits_value ds, rest).
Proof.
  intros [Hds Hne] Hrest. unfold number.
  rewrite (span_digits_app _ _ Hds Hrest).
  by destruct ds.
Qed.

(** One step of the option monad, on a value that is there. *)
Ltac step := cbn [mbind option_bind].

(** The matcher on a line of its format. *)
Lemma percent_format_line label p value total rest :
  no_colon label = true ->
  digits p -> digits value -> digits total ->
  percent_format (percentage_line label p value total rest)
  = if (JS.digits_value p <=? 100)%N
    then Some {| text := label;
                 percent := Qred (Z.of_N (JS.digits_value p) # 100) |}
    else None.
Proof.
  intros Hlabel Hp Hv Ht. unfold percent_format, percentage_line.
  change (": " +:+ ?s) with (String ":" (" " +:+ s)).
  rewrite (split_colon_app _ _ Hlabel). step.
  rewrite strip_prefix_app. step.
  rewrite (number_app p) by done. step.
  rewrite strip_prefix_app. step.
  rewrite (number_app value) by done. step.
  rewrite strip_prefix_app. step.
  rewrite (number_app total) by done. step.
  rewrite strip_prefix_app. reflexivity.
Qed.

Lemma fraction_range (p : N) :
  (p <= 100)%N -> (0 <= Qred (Z.of_N p # 100) <= 1)%Q.
Proof.
  intros Hp. rewrite Qred_correct. unfold Qle; simpl. lia.
Qed.

(** A step the matcher recognises has its fraction in [0,1]. *)
Lemma percent_format_range line details :
  percent_format line = Some details ->
  (0 <= percent details <= 1)%Q.
Proof.
  unfold percent_format. intros H.
  repeat match type of H with
         | context [mbind _ ?m] =>
             destruct m as [[] |] eqn:?; simpl in H; [| done]
         | context [mbind _ ?m] =>
             destruct m eqn:?; simpl in H; [| done]
         end.
  destruct (N.leb_spec n 100); [| done].
  injection H as <-. simpl. by apply fraction_range.
Qed.

(** Every record of the parser that has a percent has it in [0,1]. *)
Lemma parse_percent_range line q :
  record_percent (parse line) = Some q -> (0 <= q <= 1)%Q.
Proof.
  unfold parse, parse_with, matchers; simpl.
  destruct (percent_format line) as [d |] eqn:Hm; [| done].
  intros [= <-]. by apply (percent_format_range line).
Qed.

Lemma first_match_none ms line :
  (forall m, In m ms -> m line = None) -> first_match ms line = None.
Proof.
  induction ms as [| m ms IH]; simpl; intros H; [done |].
  rewrite (H m) by auto. apply IH. auto.
Qed.

Lemma first_match_some ms line details :
  first_match ms line = Some details ->
  exists m, In m ms /\ m line = Some details.
Proof.
  induction ms as [| m ms IH]; simpl; [done |].
  destruct (m line) as [d |] eqn:Hm.
  - intros [= <-]. eauto.
  - intros H. destruct (IH H) as (m' & Hin & Hm'). eauto.
Qed.

(** C4. [parse], which is [parse_with] on the table of the parser, returns
    a record for every line, and so does [parse_with] on every table of
    matchers: the [Progress] record of a matcher of the table that
    recognises the line, or the [Context] record of the line. For a line
    that no matcher recognises it is the [Context] record, and its text is
    the line unchanged. *)
Theorem parse_falls_back_to_context ms line :
  ((exists m details,
      In m ms /\ m line = Some details
      /\ parse_with ms line = Progress details)
   \/ parse_with ms line = Context line None)
  /\ ((forall m, In m ms -> m line = None) ->
      parse_with ms line = Context line None).
Proof.
  unfold parse_with. split.
  - destruct (first_match ms line) as [details |] eqn:H; [| by right].
    left. destruct (first_match_some _ _ _ H) as (m & Hin & Hm). eauto.
  - intros H. by rewrite (first_match_none _ _ H).
Qed.

(** C5. A line in the percentage format, [<label>: <p>% (<v>/<t>)] with a
    percentage of at most one hundred, parses to a [Progress] record whose
    percent is the stated percentage as a fraction, [p/100], a value in
    [0,1]. *)
Theorem parse_percentage_line label p value total rest :
  no_colon label = true ->
  digits p -> digits value -> digits total ->
  (JS.digits_value p <= 100)%N ->
  exists details,
    parse (percentage_line label p value total rest) = Progress details
    /\ (percent details == Z.of_N (JS.digits_value p) # 100)%Q
    /\ (0 <= percent details <= 1)%Q.
Proof.
  intros Hlabel Hp Hv Ht Hle.
  unfold parse, parse_with, matchers, first_match.
  rewrite (percent_format_line _ _ _ _ _ Hlabel Hp Hv Ht).
  apply N.leb_le in Hle. rewrite Hle.
  eexists. split; [reflexivity |]. simpl. split.
  - apply Qred_correct.
  - apply fraction_range. by apply N.leb_le.
Qed.

End ParserFacts.

(** ** The throttled scheduler *)

Section SchedulerFacts.

Import ThrottledScheduler.

Context {Action : Type}.

Lemma run_app (tl : Timeline Action) es es' :
  run tl (es ++ es') = run (run tl es) es'.
Proof. unfold run. apply fold_left_app. Qed.

(** With no timer pending, time passes and nothing runs. *)
Lemma waiting_idle waits : forall tl : Timeline Action,
  handle (scheduler tl) = None ->
  executed (run tl (waiting waits)) = executed tl.
Proof.
  induction waits as [| dt waits IH]; intros tl Hidle; simpl; [done |].
  rewrite IH; unfold step, fire; rewrite Hidle; done.
Qed.

(** With a timer pending and not yet due, its action runs once the time
    that has passed reaches the due time, and never again. *)
Lemma waiting_pending waits : forall (tl : Timeline Action) timer,
  handle (scheduler tl) = Some timer ->
  now tl < due timer ->
  executed (run tl (waiting waits))
  = executed tl
    ++ (if (due timer <=? now tl + sum_list waits)%nat then [action timer]
        else []).
Proof.
  induction waits as [| dt waits IH]; intros tl timer Hpending Hdue; simpl.
  - rewrite Nat.add_0_r.
    destruct (Nat.leb_spec (due timer) (now tl)); [lia |].
    by rewrite app_nil_r.
  - unfold fire. rewrite Hpending.
    destruct (Nat.leb_spec (due timer) (now tl + dt)) as [Hfire | Hwait].
    + rewrite waiting_idle by done. simpl.
      destruct (Nat.leb_spec (due timer) (now tl + (dt + sum_list waits)));
        [done | lia].
    + rewrite (IH _ timer) by done. simpl.
      by rewrite Nat.add_assoc.
Qed.

Lemma last_cons_default (l : list Action) : forall a d,
  List.last (a :: l) d = List.last l a.
Proof.
  induction l as [| b l IH]; intros a d; [done |].
  change (List.last (a :: b :: l) d) with (List.last (b :: l) d).
  by rewrite (IH b d), (IH b a).
Qed.

(** A burst whose gaps stay below the delay runs nothing; it ends with the
    timer of its last call pending. *)
Lemma run_burst rest : forall (tl : Timeline Action) first,
  Forall (fun c => fst c < delay (scheduler tl)) rest ->
  let tl' := run tl (burst first rest) in
  executed tl' = executed tl
  /\ handle (scheduler tl')
     = Some {| due := now tl' + delay (scheduler tl);
               action := last_queued first rest |}
  /\ delay (scheduler tl') = delay (scheduler tl).
Proof.
  induction rest as [| [dt a] rest IH]; intros tl first Hgaps; cbv zeta.
  - done.
  - apply Forall_cons in Hgaps as [Hgap Hgaps]. simpl in Hgap.
    set (tl1 := step (step tl (Queue first)) (Elapse dt)).
    change (run tl (burst first ((dt, a) :: rest)))
      with (run tl1 (burst a rest)).
    assert (Htl1 : executed tl1 = executed tl
                   /\ delay (scheduler tl1) = delay (scheduler tl)).
    { subst tl1. unfold step, fire; simpl.
      destruct (Nat.leb_spec (now tl + delay (scheduler tl)) (now tl + dt));
        [lia | done]. }
    destruct Htl1 as [Hexec Hdelay].
    specialize (IH tl1 a). rewrite Hdelay in IH.
    destruct (IH Hgaps) as (IH1 & IH2 & IH3).
    split_and!.
    + by rewrite IH1.
    + rewrite IH2. unfold last_queued.
      change (map snd ((dt, a) :: rest)) with (a :: map snd rest).
      by rewrite last_cons_default.
    + done.
Qed.

(** C1. A burst of calls of [queue] whose gaps all stay below the delay [D]
    (in particular, calls that all fall within one window of length [D]):
    during the burst no action runs; afterwards, once [D] has passed, the
    action of the last call has run, exactly once, and no other action of
    the burst ever runs. A timer pending before the burst is cancelled by
    its first call. *)
Theorem queue_burst_runs_last_once (D : nat) (tl : Timeline Action)
    first rest :
  delay (scheduler tl) = D ->
  0 < D ->
  Forall (fun c => fst c < D) rest ->
  let tl' := run tl (burst first rest) in
  executed tl' = executed tl
  /\ forall waits,
       executed (run tl' (waiting waits))
       = executed tl
         ++ (if (D <=? sum_list waits)%nat then [last_queued first rest]
             else []).
Proof.
  intros HD Hpos Hgaps tl'. subst D.
  destruct (run_burst rest tl first Hgaps) as (Hexec & Hpending & Hdelay).
  fold tl' in Hexec, Hpending, Hdelay.
  split; [done |]. intros waits.
  rewrite (waiting_pending waits tl' _ Hpending) by (simpl; lia).
  rewrite Hexec. simpl.
  destruct (Nat.leb_spec (now tl' + delay (scheduler tl))
                         (now tl' + sum_list waits)),
           (Nat.leb_spec (delay (scheduler tl)) (sum_list waits));
    done || lia.
Qed.

End SchedulerFacts.

(** ** Numbers written to the storage and read back *)

Section DecimalFacts.

Import JS.

Lemma string_of_uint_digits d :
  all_digits (NilEmpty.string_of_uint d) = true.
Proof. induction d; simpl; auto. Qed.

Lemma digits_value_from_uint d : forall acc,
  digits_value_from (N.pos acc) (NilEmpty.string_of_uint d)
  = N.pos (Pos.of_uint_acc d acc).
Proof.
  induction d; intros acc;
    cbn [NilEmpty.string_of_uint digits_value_from Pos.of_uint_acc];
    [reflexivity | rewrite <- IHd; f_equal; vm_compute digit_value; lia ..].
Qed.

Lemma digits_value_uint d :
  digits_value (NilEmpty.string_of_uint d) = Pos.of_uint d.
Proof.
  unfold digits_value.
  induction d;
    cbn [NilEmpty.string_of_uint digits_value_from Pos.of_uint];
    [reflexivity | exact IHd | apply (digits_value_from_uint d) ..].
Qed.

(** A digit starts no white space. *)
Lemma skip_space_digit c s :
  is_digit c = true -> skip_space (String c s) = None.
Proof.
  destruct c as [[] [] [] [] [] [] [] []]; intros Hc; try discriminate Hc;
    reflexivity.
Qed.

(** A digit is neither white space nor a sign. *)
Lemma parseInt_digits ds :
  all_digits ds = true ->
  ds <> EmptyString ->
  parseInt_string ds = Num (Z.of_N (digits_value ds))
  /\ parseInt_string (String "-" ds) = Num (- Z.of_N (digits_value ds)).
Proof.
  intros Hds Hne.
  pose proof (span_digits_app ds EmptyString Hds eq_refl) as Hspan.
  assert (Happ : ds +:+ EmptyString = ds).
  { clear. induction ds as [| c ds IH]; [done |].
    change (String c ds +:+ EmptyString)
      with (String c (ds +:+ EmptyString)).
    by rewrite IH. }
  rewrite Happ in Hspan.
  destruct ds as [| c ds]; [done |].
  simpl in Hds. apply andb_prop in Hds as [Hc _].
  unfold parseInt_string.
  assert (Htrim : trim_start (String c ds) = String c ds).
  { unfold trim_start. cbn [String.length trim_start_fuel].
    by rewrite (skip_space_digit c ds Hc). }
  split.
  - rewrite Htrim.
    assert (Hsign :
      match String c ds with
      | String "-" s' => (true, s')
      | String "+" s' => (false, s')
      | _ => (false, String c ds)
      end = (false, String c ds)).
    { destruct c as [[] [] [] [] [] [] [] []]; try discriminate Hc;
        reflexivity. }
    rewrite Hsign, Hspan. reflexivity.
  - change (trim_start (String "-" (String c ds)))
      with (String "-" (String c ds)).
    cbv iota beta. rewrite Hspan. reflexivity.
Qed.

(** [parseInt] reads back the integer that [toString] wrote. *)
Lemma parseInt_toString z : parseInt_string (toString (Num z)) = Num z.
Proof.
  destruct z as [| p | p]; [reflexivity | |]; unfold toString; simpl.
  - pose proof (DecimalPos.Unsigned.to_uint_nonnil p) as Hnil.
    assert (Hs : NilZero.string_of_uint (Pos.to_uint p)
                 = NilEmpty.string_of_uint (Pos.to_uint p))
      by (destruct (Pos.to_uint p); done).
    rewrite Hs.
    destruct (parseInt_digits (NilEmpty.string_of_uint (Pos.to_uint p)))
      as [-> _].
    + apply string_of_uint_digits.
    + by destruct (Pos.to_uint p).
    + by rewrite digits_value_uint, DecimalPos.Unsigned.of_to.
  - pose proof (DecimalPos.Unsigned.to_uint_nonnil p) as Hnil.
    assert (Hs : NilZero.string_of_uint (Pos.to_uint p)
                 = NilEmpty.string_of_uint (Pos.to_uint p))
      by (destruct (Pos.to_uint p); done).
    rewrite Hs.
    destruct (parseInt_digits (NilEmpty.string_of_uint (Pos.to_uint p)))
      as [_ ->].
    + apply string_of_uint_digits.
    + by destruct (Pos.to_uint p).
    + by rewrite digits_value_uint, DecimalPos.Unsigned.of_to.
Qed.

End DecimalFacts.

(** ** The sidebar *)

Section SidebarFacts.

Import JS ThrottledScheduler Sidebar.

Lemma truthy_number v : truthy v = true -> exists z, v = Number (Num z).
Proof. destruct v as [| | [| z]]; try done. eauto. Qed.

Lemma dispatch_props pg e :
  props (component (dispatch pg e)) = props (component pg).
Proof.
  destruct e; simpl; try done.
  - by destruct (listening pg).
  - by destruct (fire _ _).
Qed.

Lemma dispatch_drag_ready pg e : drag_ready pg -> drag_ready (dispatch pg e).
Proof.
  unfold drag_ready. intros Hpg. destruct e; simpl.
  - intros _. split; [eauto |].
    destruct (truthy (getCurrentWidth (component pg))) eqn:Hw.
    + destruct (truthy_number _ Hw) as [z ->]. simpl. eauto.
    + simpl. eauto.
  - destruct (listening pg) eqn:Hl; [| by rewrite Hl].
    intros _. by apply Hpg.
  - done.
  - done.
  - destruct (fire _ _). simpl. done.
Qed.

Lemma events_invariant es : forall pg,
  drag_ready pg ->
  drag_ready (events pg es)
  /\ props (component (events pg es)) = props (component pg).
Proof.
  induction es as [| e es IH]; intros pg Hpg; simpl; [done |].
  destruct (IH (dispatch pg e) (dispatch_drag_ready pg e Hpg)) as [H1 H2].
  split; [done |]. by rewrite H2, dispatch_props.
Qed.

Lemma idle_dispatch pg e :
  idle e ->
  handle (configWriteScheduler (component pg)) = None ->
  state (component (dispatch pg e)) = state (component pg)
  /\ props (component (dispatch pg e)) = props (component pg)
  /\ handle (configWriteScheduler (component (dispatch pg e))) = None
  /\ localStorage (dispatch pg e) = localStorage pg.
Proof.
  intros He Hnone. destruct e; try done; simpl.
  unfold fire. by rewrite Hnone.
Qed.

Lemma idle_events es : forall pg,
  Forall idle es ->
  handle (configWriteScheduler (component pg)) = None ->
  state (component (events pg es)) = state (component pg)
  /\ props (component (events pg es)) = props (component pg)
  /\ localStorage (events pg es) = localStorage pg.
Proof.
  induction es as [| e es IH]; intros pg Hes Hnone; simpl; [done |].
  apply Forall_cons in Hes as [He Hes].
  destruct (idle_dispatch pg e He Hnone) as (H1 & H2 & H3 & H4).
  destruct (IH _ Hes H3) as (IH1 & IH2 & IH3).
  split_and!; congruence.
Qed.

(** C8, as amended. Until the first mouse move of a drag or double click,
    the storage is as the constructor found it and the width that is
    rendered is the one the constructor loaded from it. With no entry under
    the key that is the [defaultWidth] prop. With the entry of a persisted
    integer, a safe one, it is that integer, unless it is zero: a persisted
    zero counts as no width, and the [defaultWidth] prop is rendered. *)
Theorem render_width_from_storage (p : ISidebarProps)
    (store : gmap string string) es :
  Forall idle es ->
  let pg := events (mount p store) es in
  localStorage pg = store
  /\ (store !! sidebarWidthConfigKey = None ->
      render_width (component pg) = Number (Num (defaultWidth p)))
  /\ (forall z,
        safe_integer z ->
        store !! sidebarWidthConfigKey = Some (toString (Num z)) ->
        render_width (component pg)
        = Number (Num (if (z =? 0)%Z then defaultWidth p else z))).
Proof.
  intros Hes pg.
  destruct (idle_events es (mount p store) Hes eq_refl) as (Hstate & Hp & Hls).
  fold pg in Hstate, Hp, Hls. simpl in Hstate, Hp, Hls.
  unfold render_width, getCurrentWidth. rewrite Hstate, Hp.
  cbn [width]. unfold getPersistedWidth. split_and!.
  - done.
  - intros ->. reflexivity.
  - intros z _ ->. unfold parseInt. rewrite parseInt_toString. simpl.
    by destruct (z =? 0)%Z.
Qed.

(** One step of a drag, from a start position and a start width. *)
Lemma handleDragMove_clamps (now : nat) x sb x0 w0 :
  startX sb = Number (Num x0) ->
  ToNumber (startWidth sb) = Num w0 ->
  let w := Z.max (minimumWidth (props sb))
                 (Z.min (maximumWidth (props sb)) (w0 + (x - x0))) in
  let sb' := handleDragMove now x sb in
  width (state sb') = Number (Num w)
  /\ handle (configWriteScheduler sb')
     = Some {| due := now + delay (configWriteScheduler sb);
               action := fun store : gmap string string =>
                 <[sidebarWidthConfigKey := toString (Num w)]> store |}.
Proof.
  intros Hx Hw. unfold handleDragMove. rewrite Hx, Hw. simpl. done.
Qed.

(** C9, as amended. Every mouse move that [handleDragMove] handles, in any
    state the page can reach, stores into the state a width that is at least
    [minimumWidth] and, provided [minimumWidth <= maximumWidth], at most
    [maximumWidth]; the write it queues persists that same width: read back
    from the storage, it is the width of the state. *)
Theorem drag_move_width_clamped (p : ISidebarProps)
    (store : gmap string string) es x :
  let pg := events (mount p store) es in
  listening pg = true ->
  let sb := component (dispatch pg (MouseMove x)) in
  exists w,
    (minimumWidth p <= w)%Z
    /\ ((minimumWidth p <= maximumWidth p)%Z -> (w <= maximumWidth p)%Z)
    /\ width (state sb) = Number (Num w)
    /\ exists timer,
         handle (configWriteScheduler sb) = Some timer
         /\ forall store',
              action timer store' !! sidebarWidthConfigKey
              = Some (toString (Num w))
              /\ getPersistedWidth (action timer store') = Num w.
Proof.
  intros pg Hl sb.
  destruct (events_invariant es (mount p store)) as [Hready Hp];
    [by intros [=] |].
  fold pg in Hready, Hp. simpl in Hp.
  destruct (Hready Hl) as [[x0 Hx0] [w0 Hw0]].
  destruct (handleDragMove_clamps (clock pg) x (component pg) x0 w0 Hx0 Hw0)
    as [Hwidth Hhandle].
  subst sb. simpl. rewrite Hl. simpl. rewrite Hp in Hwidth, Hhandle.
  eexists. split; [| split; [| split; [exact Hwidth |]]].
  - lia.
  - lia.
  - eexists. split; [exact Hhandle |]. intros store'. simpl.
    unfold getPersistedWidth. rewrite lookup_insert_eq.
    split; [done |]. apply parseInt_toString.
Qed.

End SidebarFacts.

(** The line of the spec, [Counting objects: 50% (50/100)], has percent 0.5. *)
Lemma parse_percentage_line_example :
  exists details,
    Progress.parse "Counting objects: 50% (50/100)"
    = Progress.Progress details
    /\ (Progress.percent details == 1 # 2)%Q
    /\ (0 <= Progress.percent details <= 1)%Q.
Proof.
  destruct (parse_percentage_line "Counting objects" "50" "50" "100"
              EmptyString)
    as (details & Hparse & Hpercent & Hrange).
  - reflexivity.
  - split; [reflexivity | discriminate].
  - split; [reflexivity | discriminate].
  - split; [reflexivity | discriminate].
  - vm_compute. discriminate.
  - exists details. split; [exact Hparse |]. split; [| exact Hrange].
    rewrite Hpercent. reflexivity.
Defined.

(** A line about a ref update is no progress line: it stays as it is. *)
Lemma parse_falls_back_example :
  Progress.parse_with Progress.matchers
    " * [new branch]      master     -> origin/master"
  = Progress.Context " * [new branch]      master     -> origin/master" None.
Proof.
  apply (parse_falls_back_to_context Progress.matchers).
  intros m [<- | []]. reflexivity.
Defined.

(** ** Concrete runs *)

(** The line [remote: some other informational text] is suppressed, and the
    line [remote: Counting objects: 10% (1/10)] is not. *)
Lemma on_data_filters_context_example :
  snd (Pull.on_data Progress.parse "pull" "Pulling origin" "origin" sink
         "remote: some other informational text" fresh) = fresh
  /\ exists e,
       Pull.observer
         (snd (Pull.on_data Progress.parse "pull" "Pulling origin" "origin"
                 sink "remote: Counting objects: 10% (1/10)" fresh))
       = [e].
Proof.
  split.
  - destruct (on_data_filters_context Progress.parse "origin"
                "remote: some other informational text" fresh)
      as [Hcontext _].
    destruct (Hcontext "remote: some other informational text" None eq_refl)
      as [_ Hsuppressed].
    exact (Hsuppressed eq_refl).
  - destruct (on_data_filters_context Progress.parse "origin"
                "remote: Counting objects: 10% (1/10)" fresh)
      as [Hcontext _].
    destruct (Hcontext "remote: Counting objects: 10% (1/10)" None eq_refl)
      as [[_ Hemitted] _].
    exact (Hemitted eq_refl).
Defined.

(** The events of a whole run, with the parser of [Progress], have the shape
    of C7. *)
Lemma pull_event_shape_example :
  exists new,
    Pull.observer
      (snd (Pull.pull (fun _ : option unit => tt) tt example_spawn
              Progress.parse {| Git.path := "/repository" |} None "origin"
              (Some sink) fresh))
    = Pull.observer fresh ++ new
    /\ Forall
         (event_shape Progress.parse "origin"
            (Git.stderr
               (Git.process
                  (example_spawn ["pull"; "--progress"; "origin"]
                     "/repository"))))
         new.
Proof.
  apply (pull_event_shape (fun _ : option unit => tt) tt example_spawn
           Progress.parse {| Git.path := "/repository" |} None "origin" fresh).
  exact parse_percent_range.
Defined.



(** Three calls within 250 ms of a scheduler with a delay of 300 ms: after
    300 ms more only the third has run. *)
Lemma queue_burst_example :
  ThrottledScheduler.executed
    (ThrottledScheduler.run (ThrottledScheduler.start 300)
       (burst "a" [(100, "b"); (150, "c")]))
  = []
  /\ ThrottledScheduler.executed
       (ThrottledScheduler.run
          (ThrottledScheduler.run (ThrottledScheduler.start 300)
             (burst "a" [(100, "b"); (150, "c")]))
          (waiting [200; 100]))
     = ["c"].
Proof.
  destruct (queue_burst_runs_last_once 300 (ThrottledScheduler.start 300)
              "a" [(100, "b"); (150, "c")]) as [Hburst Hlater].
  - reflexivity.
  - lia.
  - repeat constructor; simpl; lia.
  - split; [exact Hburst | exact (Hlater [200; 100])].
Defined.

(** After a press, half a second and a release: with nothing stored the
    default width is rendered, and a stored 300 is rendered as 300. *)
Lemma render_width_from_storage_example :
  Sidebar.render_width
    (Sidebar.component
       (Sidebar.events (Sidebar.mount Sidebar.defaultProps ∅)
          [Sidebar.MouseDown 10; Sidebar.Elapse 500; Sidebar.MouseUp]))
  = JS.Number (JS.Num 250)
  /\ Sidebar.render_width
       (Sidebar.component
          (Sidebar.events
             (Sidebar.mount Sidebar.defaultProps
                {[ "sidebar-width" := "300" ]})
             [Sidebar.MouseDown 10; Sidebar.Elapse 500; Sidebar.MouseUp]))
     = JS.Number (JS.Num 300).
Proof.
  split.
  - destruct (render_width_from_storage Sidebar.defaultProps ∅
                [Sidebar.MouseDown 10; Sidebar.Elapse 500; Sidebar.MouseUp])
      as (_ & Habsent & _).
    + repeat constructor.
    + exact (Habsent eq_refl).
  - destruct (render_width_from_storage Sidebar.defaultProps
                {[ "sidebar-width" := "300" ]}
                [Sidebar.MouseDown 10; Sidebar.Elapse 500; Sidebar.MouseUp])
      as (_ & _ & Hpresent).
    + repeat constructor.
    + apply (Hpresent 300%Z); [| reflexivity].
      unfold JS.safe_integer. simpl. lia.
Defined.

(** The width that is rendered is not always the stored one. A stored 0 is
    an integer in the storage, and the default width is rendered. After a
    press and a mouse move there is still no entry in the storage, and the
    width of the drag is rendered, not the default width. After a double
    click the stored 300 is still in the storage, and the default width is
    rendered. *)
Lemma rendered_width_is_not_the_stored_width :
  (({[ "sidebar-width" := "0" ]} : gmap string string)
     !! Sidebar.sidebarWidthConfigKey = Some (JS.toString (JS.Num 0))
   /\ Sidebar.render_width
        (Sidebar.constructor Sidebar.defaultProps
           {[ "sidebar-width" := "0" ]})
      = JS.Number (JS.Num 250))
  /\ (Sidebar.localStorage
        (Sidebar.events (Sidebar.mount Sidebar.defaultProps ∅)
           [Sidebar.MouseDown 250; Sidebar.MouseMove 300])
        !! Sidebar.sidebarWidthConfigKey = None
      /\ Sidebar.render_width
           (Sidebar.component
              (Sidebar.events (Sidebar.mount Sidebar.defaultProps ∅)
                 [Sidebar.MouseDown 250; Sidebar.MouseMove 300]))
         = JS.Number (JS.Num 300))
  /\ (Sidebar.localStorage
        (Sidebar.events
           (Sidebar.mount Sidebar.defaultProps {[ "sidebar-width" := "300" ]})
           [Sidebar.DoubleClick])
        !! Sidebar.sidebarWidthConfigKey = Some (JS.toString (JS.Num 300))
      /\ Sidebar.render_width
           (Sidebar.component
              (Sidebar.events
                 (Sidebar.mount Sidebar.defaultProps
                    {[ "sidebar-width" := "300" ]})
                 [Sidebar.DoubleClick]))
         = JS.Number (JS.Num 250)).
Proof. repeat split; reflexivity. Qed.

(** A drag from x = 250 far to the right stops at the maximum width. *)
Lemma drag_move_width_clamped_example :
  exists w,
    (150 <= w <= 350)%Z
    /\ Sidebar.width
         (Sidebar.state
            (Sidebar.component
               (Sidebar.dispatch
                  (Sidebar.events (Sidebar.mount Sidebar.defaultProps ∅)
                     [Sidebar.MouseDown 250])
                  (Sidebar.MouseMove 1000))))
       = JS.Number (JS.Num w).
Proof.
  destruct (drag_move_width_clamped Sidebar.defaultProps ∅
              [Sidebar.MouseDown 250] 1000%Z eq_refl)
    as (w & Hmin & Hmax & Hwidth & _).
  exists w. split; [| exact Hwidth].
  split; [exact Hmin | apply Hmax; simpl; lia].
Defined.

(** With a minimum above the maximum, a drag stores the minimum, which is
    above the maximum. *)
Lemma drag_move_above_maximum :
  Sidebar.width
    (Sidebar.state
       (Sidebar.component
          (Sidebar.dispatch
             (Sidebar.events (Sidebar.mount crossed_props ∅)
                [Sidebar.MouseDown 250])
             (Sidebar.MouseMove 260))))
  = JS.Number (JS.Num 400)
  /\ (Sidebar.maximumWidth crossed_props < 400)%Z.
Proof. split; [reflexivity | simpl; lia]. Qed.

(** * Further properties *)

(** ** [pull]: the events of a run, in order *)

Section PullRuns.

Import Git Pull.

Context {Account Env Errors Observer : Type}.
Variable envForAuthentication : option Account -> Env.
Variable expectedAuthenticationErrors : Errors.
Variable spawn : list string -> string -> Run.
Variable parse : string -> Progress.IProgress.
Variable cb : IPullProgress -> Observer -> Observer.

Lemma line_events_filter remote lines :
  flat_map (line_events parse remote) lines
  = map (event_of remote) (List.filter passes (map parse lines)).
Proof.
  induction lines as [| line lines IH]; simpl; [done |].
  unfold line_events at 1. destruct (passes (parse line)); simpl;
    by rewrite IH.
Qed.

(** X1. For every callback that returns normally (a callback here is a
    change of the observer, it cannot throw), and whether or not git reports
    an error, the callback of a run of [pull] meets exactly the events
    [pull_events]: the initial event first, then one event for each line
    that is not empty and whose record passes the filter, in the order in
    which the subprocess wrote the lines. *)
Theorem pull_delivers_events_in_order repository account remote (w : World) :
  observer
    (snd (pull envForAuthentication expectedAuthenticationErrors spawn parse
            repository account remote (Some cb) w))
  = deliver cb
      (pull_events parse remote
         (stderr (process (spawn ["pull"; "--progress"; remote]
                                 (path repository)))))
      (observer w).
Proof.
  rewrite pull_with_callback. simpl. by rewrite line_events_filter.
Qed.

End PullRuns.

(** ** The sidebar: what is written is what is read *)

Section SidebarRuns.

Import JS ThrottledScheduler Sidebar.

Lemma parseInt_toString_number n : parseInt_string (toString n) = n.
Proof. destruct n as [| z]; [reflexivity | apply parseInt_toString]. Qed.

(** X2. For a safe integer or [NaN]: the write that [setPersistedWidth]
    queues, run on any storage, makes [getPersistedWidth] read the number
    that was passed; the write that [clearPersistedWidth] queues makes it
    read [NaN]; and neither write touches another key of the storage. *)
Theorem persisted_width_round_trip (now : nat) (n : number) (sb : t) :
  safe_number n ->
  (exists timer,
     handle (configWriteScheduler (setPersistedWidth now n sb)) = Some timer
     /\ forall store : gmap string string,
          getPersistedWidth (action timer store) = n
          /\ forall key, key <> sidebarWidthConfigKey ->
               action timer store !! key = store !! key)
  /\ (exists timer,
        handle (configWriteScheduler (clearPersistedWidth now sb)) = Some timer
        /\ forall store : gmap string string,
             getPersistedWidth (action timer store) = NaN
             /\ forall key, key <> sidebarWidthConfigKey ->
                  action timer store !! key = store !! key).
Proof.
  intros _.
  split; eexists; (split; [reflexivity |]); intros store; simpl;
    unfold getPersistedWidth.
  - rewrite lookup_insert_eq. split; [apply parseInt_toString_number |].
    intros key Hkey. by rewrite lookup_insert_ne.
  - rewrite lookup_delete_eq. split; [reflexivity |].
    intros key Hkey. by rewrite lookup_delete_ne.
Qed.

(** *** Dragging *)

(** The width that is rendered is always a number. *)
Lemma getCurrentWidth_number sb : exists w, getCurrentWidth sb = Number (Num w).
Proof.
  unfold getCurrentWidth.
  destruct (truthy (width (state sb))) eqn:Hw; [| eauto].
  by apply truthy_number.
Qed.

Lemma dragging_start pg x0 w0 :
  render_width (component pg) = Number (Num w0) ->
  dragging x0 w0 (dispatch pg (MouseDown x0)).
Proof.
  unfold render_width. intros Hw. unfold dragging; simpl.
  rewrite Hw. simpl. split_and!; try done.
  destruct (w0 =? 0)%Z eqn:Hz; simpl; [| done].
  apply Z.eqb_eq in Hz. by subst.
Qed.

Lemma dragging_motion x0 w0 pg e :
  dragging x0 w0 pg -> drag_motion e ->
  dragging x0 w0 (dispatch pg e)
  /\ props (component (dispatch pg e)) = props (component pg).
Proof.
  intros (Hl & Hx & Hw) He. split; [| apply dispatch_props].
  destruct e; try done; unfold dragging; simpl.
  - by rewrite Hl.
  - by destruct (fire _ _).
Qed.

Lemma dragging_motions x0 w0 es : forall pg,
  dragging x0 w0 pg -> Forall drag_motion es ->
  dragging x0 w0 (events pg es)
  /\ props (component (events pg es)) = props (component pg).
Proof.
  induction es as [| e es IH]; intros pg Hpg Hes; simpl; [done |].
  apply Forall_cons in Hes as [He Hes].
  destruct (dragging_motion x0 w0 pg e Hpg He) as [Hpg' Hprops].
  destruct (IH _ Hpg' Hes) as [H1 H2]. split; [done |]. by rewrite H2.
Qed.

(** X4. The width during a drag follows the mouse: after a press at [x0] on
    a page that renders the width [w0], and any number of mouse moves and
    pauses, the width after a mouse move to [x] is [w0 + (x - x0)], clamped
    by the props. It depends on the press and on the last position only,
    not on the moves in between. *)
Theorem drag_follows_pointer pg x0 w0 es x :
  render_width (component pg) = Number (Num w0) ->
  Forall drag_motion es ->
  width
    (state
       (component
          (events (dispatch pg (MouseDown x0)) (es ++ [MouseMove x]))))
  = Number (Num (clamp (props (component pg)) (w0 + (x - x0)))).
Proof.
  intros Hw Hes.
  set (pg1 := events (dispatch pg (MouseDown x0)) es).
  assert (Hrun : events (dispatch pg (MouseDown x0)) (es ++ [MouseMove x])
                 = dispatch pg1 (MouseMove x)).
  { unfold events. by rewrite fold_left_app. }
  rewrite Hrun.
  destruct (dragging_motions x0 w0 es _ (dragging_start pg x0 w0 Hw) Hes)
    as [(Hl & Hx & Hw0) Hprops].
  fold pg1 in Hl, Hx, Hw0, Hprops.
  unfold dispatch. rewrite Hl.
  destruct (handleDragMove_clamps (clock pg1) x (component pg1) x0 w0
              Hx Hw0) as [Hwidth _].
  cbn [component]. rewrite Hwidth, Hprops, dispatch_props. reflexivity.
Qed.

(** *** The width that is rendered stays within the props *)

Lemma in_bounds_rendered p sb v :
  props sb = p ->
  (minimumWidth p <= defaultWidth p <= maximumWidth p)%Z ->
  v = Undefined \/ in_bounds p v ->
  in_bounds p (render_width (setState v sb)).
Proof.
  intros Hp Hdefault Hv. unfold render_width, getCurrentWidth. simpl.
  destruct Hv as [-> | (w & -> & Hw)]; simpl.
  - rewrite Hp. by eexists.
  - destruct (w =? 0)%Z; simpl; [rewrite Hp |]; by eexists.
Qed.

(** X5. With props whose default width lies between the minimum and the
    maximum, and a storage from which the constructor loads a width within
    these bounds (or none), the width that is rendered lies between the
    minimum and the maximum whatever happens on the page: presses, moves,
    releases, double clicks and timers. *)
Theorem rendered_width_stays_in_bounds p (store : gmap string string) es :
  (minimumWidth p <= defaultWidth p <= maximumWidth p)%Z ->
  in_bounds p (render_width (constructor p store)) ->
  in_bounds p (render_width (component (events (mount p store) es))).
Proof.
  intros Hdefault Hstart.
  assert (Hinv : forall es pg,
            props (component pg) = p ->
            drag_ready pg ->
            in_bounds p (render_width (component pg)) ->
            in_bounds p (render_width (component (events pg es)))).
  { clear es Hstart. induction es as [| e es IH]; intros pg Hp Hready Hb;
      simpl; [done |].
    apply IH.
    - by rewrite dispatch_props.
    - by apply dispatch_drag_ready.
    - destruct e; simpl; try done.
      + destruct (listening pg) eqn:Hl; [| done].
        destruct (Hready Hl) as [[x0 Hx0] [w0 Hw0]].
        cbn [component]. unfold handleDragMove. rewrite Hx0, Hw0. simpl.
        apply (in_bounds_rendered p (component pg)); [done .. |].
        right. eexists. split; [reflexivity |]. rewrite Hp. lia.
      + apply (in_bounds_rendered p (component pg)); auto.
      + by destruct (fire _ _). }
  apply Hinv; [done | by intros [=] | done].
Qed.

(** *** Writes reach the storage after the delay *)

Lemma dispatch_delay pg e :
  delay (configWriteScheduler (component (dispatch pg e)))
  = delay (configWriteScheduler (component pg)).
Proof.
  destruct e; simpl; try done.
  - by destruct (listening pg).
  - unfold fire. destruct (handle _) as [timer |]; [| done].
    by destruct (due timer <=? _)%nat.
Qed.

(** The scheduler of a sidebar keeps its delay of 300 ms. *)
Lemma events_delay es : forall pg,
  delay (configWriteScheduler (component (events pg es)))
  = delay (configWriteScheduler (component pg)).
Proof.
  induction es as [| e es IH]; intros pg; simpl; [done |].
  by rewrite IH, dispatch_delay.
Qed.

(** A write that is queued and then left alone for [dt] milliseconds. *)
Lemma queued_write_runs pg sb'
    (write : gmap string string -> gmap string string) dt :
  handle (configWriteScheduler sb')
  = Some {| due := clock pg + 300; action := write |} ->
  let pg' :=
    dispatch {| component := sb'; localStorage := localStorage pg;
                clock := clock pg; listening := listening pg |}
             (Sidebar.Elapse dt) in
  localStorage pg'
  = (if (300 <=? dt)%nat then write (localStorage pg) else localStorage pg)
  /\ state (component pg') = state sb'
  /\ props (component pg') = props sb'
  /\ startX (component pg') = startX sb'
  /\ startWidth (component pg') = startWidth sb'
  /\ listening pg' = listening pg
  /\ (300 <= dt -> handle (configWriteScheduler (component pg')) = None).
Proof.
  intros Hh. cbv zeta.
  destruct (Nat.leb_spec 300 dt); simpl; unfold fire; rewrite Hh; simpl;
    destruct (Nat.leb_spec (clock pg + 300) (clock pg + dt)); try lia;
    simpl; split_and!; try done.
  intros. exfalso. lia.
Qed.

(** X6. A double click resets the width, and the reset persists: the
    default width is rendered at once; once 300 ms have passed, the entry
    is gone from the storage and nothing else of the storage has changed,
    so that a sidebar constructed from that storage renders its default
    width too. *)
Theorem double_click_resets_width p (store : gmap string string) es dt :
  300 <= dt ->
  let pg := events (mount p store) es in
  let pg' := events pg [DoubleClick; Sidebar.Elapse dt] in
  render_width (component (dispatch pg DoubleClick))
  = Number (Num (defaultWidth p))
  /\ render_width (component pg') = Number (Num (defaultWidth p))
  /\ localStorage pg' = delete sidebarWidthConfigKey (localStorage pg)
  /\ forall p',
       render_width (constructor p' (localStorage pg'))
       = Number (Num (defaultWidth p')).
Proof.
  intros Hdt pg pg'.
  destruct (events_invariant es (mount p store)) as [_ Hp];
    [by intros [=] |].
  fold pg in Hp. simpl in Hp.
  pose proof (events_delay es (mount p store)) as Hdelay.
  fold pg in Hdelay. simpl in Hdelay.
  destruct (queued_write_runs pg (handleDoubleClick (clock pg) (component pg))
              (fun store => delete sidebarWidthConfigKey store) dt)
    as (Hstore & Hstate & _).
  { simpl. by rewrite Hdelay. }
  change (events pg [DoubleClick; Sidebar.Elapse dt])
    with (dispatch (dispatch pg DoubleClick) (Sidebar.Elapse dt)) in pg'.
  change (dispatch pg DoubleClick)
    with {| component := handleDoubleClick (clock pg) (component pg);
            localStorage := localStorage pg; clock := clock pg;
            listening := listening pg |} in pg'.
  fold pg' in Hstore, Hstate.
  destruct (Nat.leb_spec 300 dt); [| lia].
  split_and!.
  - unfold render_width, getCurrentWidth. simpl. by rewrite Hp.
  - unfold render_width, getCurrentWidth. rewrite Hstate. simpl.
    pose proof (dispatch_props
                  {| component := handleDoubleClick (clock pg) (component pg);
                     localStorage := localStorage pg; clock := clock pg;
                     listening := listening pg |} (Sidebar.Elapse dt)) as Hp'.
    fold pg' in Hp'. rewrite Hp'. simpl. by rewrite Hp.
  - done.
  - intros p'. rewrite Hstore.
    unfold render_width, getCurrentWidth, constructor, getPersistedWidth.
    simpl. by rewrite lookup_delete_eq.
Qed.

(** A mouse move during a drag, followed by a pause. *)
Lemma move_then_pause x0 w0 pg x dt :
  dragging x0 w0 pg ->
  delay (configWriteScheduler (component pg)) = 300 ->
  let pg' := events pg [MouseMove x; Sidebar.Elapse dt] in
  let w := clamp (props (component pg)) (w0 + (x - x0)) in
  dragging x0 w0 pg'
  /\ delay (configWriteScheduler (component pg')) = 300
  /\ width (state (component pg')) = Number (Num w)
  /\ localStorage pg'
     = (if (300 <=? dt)%nat
        then <[sidebarWidthConfigKey := toString (Num w)]> (localStorage pg)
        else localStorage pg)
  /\ (300 <= dt -> handle (configWriteScheduler (component pg')) = None).
Proof.
  intros (Hl & Hx & Hw) Hdelay pg' w.
  assert (Hmove : dispatch pg (MouseMove x)
                  = {| component := handleDragMove (clock pg) x (component pg);
                       localStorage := localStorage pg;
                       clock := clock pg;
                       listening := listening pg |}).
  { simpl. by rewrite Hl. }
  destruct (handleDragMove_clamps (clock pg) x (component pg) x0 w0 Hx Hw)
    as [Hwidth Hhandle].
  rewrite Hdelay in Hhandle.
  destruct (queued_write_runs pg _ _ dt Hhandle)
    as (Hstore & Hstate & _ & Hx' & Hw' & Hl' & Hnone).
  subst pg'. change (events pg [MouseMove x; Sidebar.Elapse dt])
    with (dispatch (dispatch pg (MouseMove x)) (Sidebar.Elapse dt)).
  rewrite Hmove. split_and!.
  - unfold dragging. rewrite Hl', Hx', Hw'. done.
  - rewrite dispatch_delay. simpl. done.
  - rewrite Hstate. exact Hwidth.
  - exact Hstore.
  - exact Hnone.
Qed.

(** Moves with pauses shorter than the delay write nothing. *)
Lemma drag_burst_writes_nothing x0 w0 moves : forall pg,
  dragging x0 w0 pg ->
  delay (configWriteScheduler (component pg)) = 300 ->
  Forall (fun c => snd c < 300) moves ->
  let pg' := events pg (drag_burst moves) in
  dragging x0 w0 pg'
  /\ delay (configWriteScheduler (component pg')) = 300
  /\ localStorage pg' = localStorage pg.
Proof.
  induction moves as [| [x dt] moves IH]; intros pg Hdrag Hdelay Hshort;
    cbv zeta; [done |].
  apply Forall_cons in Hshort as [Hdt Hshort]. simpl in Hdt.
  destruct (move_then_pause x0 w0 pg x dt Hdrag Hdelay)
    as (Hdrag' & Hdelay' & _ & Hstore & _).
  destruct (Nat.leb_spec 300 dt); [lia |].
  change (events pg (drag_burst ((x, dt) :: moves)))
    with (events (events pg [MouseMove x; Sidebar.Elapse dt])
            (drag_burst moves)).
  destruct (IH _ Hdrag' Hdelay' Hshort) as (H1 & H2 & H3).
  split_and!; [done .. |]. by rewrite H3.
Qed.

(** X7. Writes of a drag are throttled: while the mouse moves with pauses
    shorter than 300 ms, the storage stays as it was; once a move is
    followed by 300 ms of rest, the storage holds the width of the state
    under the key of the sidebar, nothing else of it has changed, and no
    write is pending. *)
Theorem drag_writes_once_after_delay p (store : gmap string string) es moves
    x dt :
  let pg := events (mount p store) es in
  listening pg = true ->
  Forall (fun c => snd c < 300) moves ->
  300 <= dt ->
  let pg1 := events pg (drag_burst moves) in
  let pg2 := events pg1 [MouseMove x; Sidebar.Elapse dt] in
  localStorage pg1 = localStorage pg
  /\ exists w,
       width (state (component pg2)) = Number (Num w)
       /\ localStorage pg2
          = <[sidebarWidthConfigKey := toString (Num w)]> (localStorage pg)
       /\ handle (configWriteScheduler (component pg2)) = None.
Proof.
  intros pg Hl Hshort Hdt pg1 pg2.
  destruct (events_invariant es (mount p store)) as [Hready _];
    [by intros [=] |].
  fold pg in Hready. destruct (Hready Hl) as [[x0 Hx0] [w0 Hw0]].
  pose proof (events_delay es (mount p store)) as Hdelay.
  fold pg in Hdelay. simpl in Hdelay.
  destruct (drag_burst_writes_nothing x0 w0 moves pg)
    as (Hdrag1 & Hdelay1 & Hstore1);
    [done .. |].
  fold pg1 in Hdrag1, Hdelay1, Hstore1.
  destruct (move_then_pause x0 w0 pg1 x dt Hdrag1 Hdelay1)
    as (_ & _ & Hwidth & Hstore & Hnone).
  fold pg2 in Hwidth, Hstore, Hnone.
  destruct (Nat.leb_spec 300 dt); [| lia].
  split; [done |]. eexists. split; [exact Hwidth |].
  split; [by rewrite Hstore, Hstore1 | by apply Hnone].
Qed.

Lemma clamp_safe p w :
  safe_integer (minimumWidth p) -> safe_integer (maximumWidth p) ->
  safe_integer (clamp p w).
Proof. unfold safe_integer, clamp. lia. Qed.

(** X8. A width set by dragging survives a restart, for props whose minimum
    and maximum widths are safe integers: once a mouse move of a drag has
    been followed by 300 ms of rest, the width of the state is a safe
    integer, and a sidebar constructed from the storage renders it, unless
    it is zero, in which case that sidebar renders its default width. *)
Theorem dragged_width_survives_restart p (store : gmap string string) es x dt
    p' :
  safe_integer (minimumWidth p) ->
  safe_integer (maximumWidth p) ->
  let pg := events (mount p store) es in
  listening pg = true ->
  300 <= dt ->
  let pg' := events pg [MouseMove x; Sidebar.Elapse dt] in
  exists w,
    safe_integer w
    /\ width (state (component pg')) = Number (Num w)
    /\ render_width (constructor p' (localStorage pg'))
       = Number (Num (if (w =? 0)%Z then defaultWidth p' else w)).
Proof.
  intros Hmin Hmax pg Hl Hdt pg'.
  destruct (events_invariant es (mount p store)) as [Hready Hp];
    [by intros [=] |].
  fold pg in Hready, Hp. simpl in Hp.
  destruct (Hready Hl) as [[x0 Hx0] [w0 Hw0]].
  pose proof (events_delay es (mount p store)) as Hdelay.
  fold pg in Hdelay. simpl in Hdelay.
  destruct (move_then_pause x0 w0 pg x dt) as (_ & _ & Hwidth & Hstore & _);
    [done .. |].
  fold pg' in Hwidth, Hstore. rewrite Hp in Hwidth, Hstore.
  destruct (Nat.leb_spec 300 dt); [| lia].
  eexists. split; [by apply (clamp_safe p) |]. split; [exact Hwidth |].
  rewrite Hstore.
  unfold render_width, getCurrentWidth, constructor, getPersistedWidth.
  cbn [state width]. rewrite lookup_insert_eq.
  unfold parseInt. rewrite parseInt_toString. simpl.
  by destruct (_ =? 0)%Z.
Qed.

End SidebarRuns.

(** ** Concrete runs of the sidebar *)

(** A press at 100 on a fresh sidebar of width 250, then moves to 120 and,
    after 50 ms, to 130: the width is 280. *)
Lemma drag_follows_pointer_example :
  Sidebar.width
    (Sidebar.state
       (Sidebar.component
          (Sidebar.events
             (Sidebar.dispatch (Sidebar.mount Sidebar.defaultProps ∅)
                (Sidebar.MouseDown 100))
             ([Sidebar.MouseMove 120; Sidebar.Elapse 50]
              ++ [Sidebar.MouseMove 130]))))
  = JS.Number (JS.Num 280).
Proof.
  apply (drag_follows_pointer (Sidebar.mount Sidebar.defaultProps ∅)
           100 250 [Sidebar.MouseMove 120; Sidebar.Elapse 50] 130).
  - reflexivity.
  - repeat constructor.
Defined.

(** A stored width of 300, a drag far to the right and a double click: what
    is rendered stays between 150 and 350. *)
Lemma rendered_width_stays_in_bounds_example :
  in_bounds Sidebar.defaultProps
    (Sidebar.render_width
       (Sidebar.component
          (Sidebar.events
             (Sidebar.mount Sidebar.defaultProps {[ "sidebar-width" := "300" ]})
             [Sidebar.MouseDown 0; Sidebar.MouseMove 5000; Sidebar.MouseUp;
              Sidebar.DoubleClick]))).
Proof.
  apply (rendered_width_stays_in_bounds Sidebar.defaultProps
           {[ "sidebar-width" := "300" ]}).
  - simpl. lia.
  - exists 300%Z. split; [reflexivity | simpl; lia].
Defined.

(** A double click on a sidebar whose storage holds 300, and 300 ms. *)
Lemma double_click_resets_width_example :
  Sidebar.localStorage
    (Sidebar.events
       (Sidebar.mount Sidebar.defaultProps {[ "sidebar-width" := "300" ]})
       [Sidebar.DoubleClick; Sidebar.Elapse 300])
  = delete Sidebar.sidebarWidthConfigKey
      ({[ "sidebar-width" := "300" ]} : gmap string string).
Proof.
  destruct (double_click_resets_width Sidebar.defaultProps
              {[ "sidebar-width" := "300" ]} [] 300 (le_n 300))
    as (_ & _ & Hstore & _).
  exact Hstore.
Defined.

(** A drag with two quick moves, then a move and 300 ms of rest. *)
Lemma drag_writes_once_after_delay_example :
  Sidebar.localStorage
    (Sidebar.events
       (Sidebar.events (Sidebar.mount Sidebar.defaultProps ∅)
          [Sidebar.MouseDown 250])
       (drag_burst [(260%Z, 100); (270%Z, 100)]))
  = ∅
  /\ exists w,
       Sidebar.localStorage
         (Sidebar.events
            (Sidebar.events
               (Sidebar.events (Sidebar.mount Sidebar.defaultProps ∅)
                  [Sidebar.MouseDown 250])
               (drag_burst [(260%Z, 100); (270%Z, 100)]))
            [Sidebar.MouseMove 300; Sidebar.Elapse 300])
       = {[ Sidebar.sidebarWidthConfigKey := JS.toString (JS.Num w) ]}.
Proof.
  destruct (drag_writes_once_after_delay Sidebar.defaultProps ∅
              [Sidebar.MouseDown 250] [(260%Z, 100); (270%Z, 100)] 300%Z 300)
    as (Hburst & w & _ & Hstore & _).
  - reflexivity.
  - repeat constructor; simpl; lia.
  - lia.
  - split; [exact Hburst |]. exists w. exact Hstore.
Defined.

(** A drag to the width 300, 300 ms of rest, and a new sidebar. *)
Lemma dragged_width_survives_restart_example :
  exists w,
    JS.safe_integer w
    /\ Sidebar.width
         (Sidebar.state
            (Sidebar.component
               (Sidebar.events
                  (Sidebar.events (Sidebar.mount Sidebar.defaultProps ∅)
                     [Sidebar.MouseDown 250])
                  [Sidebar.MouseMove 300; Sidebar.Elapse 300])))
       = JS.Number (JS.Num w)
    /\ Sidebar.render_width
         (Sidebar.constructor Sidebar.defaultProps
            (Sidebar.localStorage
               (Sidebar.events
                  (Sidebar.events (Sidebar.mount Sidebar.defaultProps ∅)
                     [Sidebar.MouseDown 250])
                  [Sidebar.MouseMove 300; Sidebar.Elapse 300])))
       = JS.Number (JS.Num (if (w =? 0)%Z then 250%Z else w)).
Proof.
  apply (dragged_width_survives_restart Sidebar.defaultProps ∅
           [Sidebar.MouseDown 250] 300%Z 300 Sidebar.defaultProps).
  - unfold JS.safe_integer. simpl. lia.
  - unfold JS.safe_integer. simpl. lia.
  - reflexivity.
  - lia.
Defined.

(** Writing 300 and reading it back. *)
Lemma persisted_width_round_trip_example :
  exists timer,
    ThrottledScheduler.handle
      (Sidebar.configWriteScheduler
         (Sidebar.setPersistedWidth 0 (JS.Num 300)
            (Sidebar.constructor Sidebar.defaultProps ∅)))
    = Some timer
    /\ forall store : gmap string string,
         Sidebar.getPersistedWidth (ThrottledScheduler.action timer store)
         = JS.Num 300
         /\ forall key, key <> Sidebar.sidebarWidthConfigKey ->
              ThrottledScheduler.action timer store !! key = store !! key.
Proof.
  destruct (persisted_width_round_trip 0 (JS.Num 300)
              (Sidebar.constructor Sidebar.defaultProps ∅)) as [Hset _].
  - unfold JS.safe_number, JS.safe_integer. simpl. lia.
  - exact Hset.
Defined.
